(** * replace_section.py: the section replacer of AIMediaGen.ts

    A shallow embedding of [src/replace_section.py] and the properties of its
    four steps: read the target file as lines, scan for the two markers,
    generate the fourteen field blocks, splice and write back.

    Modelling choices.
    - Text is [string]; a character of the decoded file is an [ascii].  The
      markers are plain ASCII, so substring tests and line splitting agree
      with Python's on any text whose decoding round-trips.
    - [open(path, 'r')] is a text-mode open: every carriage return, with or
      without a following line feed, reaches the program as one line feed
      ([universal_newlines]).  [open(path, 'w')] writes line feeds as they
      are (the POSIX line separator; the script carries a POSIX shebang).
    - The disk is a finite map from paths to contents and the standard
      output a list of printed lines; the script runs in a small monad that
      threads both and carries [exit(1)] and uncaught exceptions. *)

From Stdlib Require Import Ascii.
From Stdlib Require String.
From stdpp Require Import gmap strings list pretty.

Local Open Scope char_scope.
Local Open Scope stdpp_scope.

(** ** Python values the script uses *)

Module Py.

Definition LF : ascii := "010".
Definition CR : ascii := "013".
Definition TAB : ascii := "009".

Definition nl : string := String LF EmptyString.

(** [tabs n s] is [s] behind [n] tab characters, the [\t] runs of the
    template. *)
Fixpoint tabs (n : nat) (s : string) : string :=
  match n with
  | O => s
  | S n' => String TAB (tabs n' s)
  end.

(** [needle in hay] on [str]: some suffix of [hay] starts with [needle]. *)
Fixpoint contains (needle hay : string) : bool :=
  if String.prefix needle hay then true
  else match hay with
       | EmptyString => false
       | String _ hay' => contains needle hay'
       end.

(** Text-mode reading: [\r\n] and a lone [\r] both become [\n]. *)
Fixpoint universal_newlines (s : string) : string :=
  match s with
  | EmptyString => EmptyString
  | String c rest =>
      if decide (c = CR) then
        String LF match rest with
                  | String c' rest' =>
                      if decide (c' = LF) then universal_newlines rest'
                      else universal_newlines rest
                  | EmptyString => universal_newlines rest
                  end
      else String c (universal_newlines rest)
  end.

(** [f.readlines()] on already translated text: cut after every line
    feed, keep the line feed, no empty last line. *)
Fixpoint readlines (s : string) : list string :=
  match s with
  | EmptyString => []
  | String c rest =>
      if decide (c = LF) then String c EmptyString :: readlines rest
      else match readlines rest with
           | [] => [String c EmptyString]
           | l :: ls => String c l :: ls
           end
  end.

(** What [f.writelines(ls)] sends to the file: the items one after the
    other, nothing added between them. *)
Fixpoint joined (ls : list string) : string :=
  match ls with
  | [] => EmptyString
  | l :: ls' => l +:+ joined ls'
  end.

(** [str(n)] for a non-negative [int]. *)
Definition str (n : nat) : string := pretty n.

(** How an f-string shows [Optional[int]]: [None] or the decimal. *)
Definition fmt_idx (o : option nat) : string :=
  match o with
  | None => "None"
  | Some n => str n
  end.

(** [range(a, b)] *)
Definition range (a b : nat) : list nat := seq a (b - a).

(** [s[n:]] *)
Fixpoint skip (n : nat) (s : string) : string :=
  match n, s with
  | S n', String _ s' => skip n' s'
  | _, _ => s
  end.

(** The part of [s] before the first [c], all of [s] when there is none. *)
Fixpoint upto (c : ascii) (s : string) : string :=
  match s with
  | EmptyString => EmptyString
  | String c' s' => if decide (c' = c) then EmptyString else String c' (upto c s')
  end.

(** What follows each occurrence of [needle] in [hay], left to right. *)
Fixpoint after_each (needle hay : string) : list string :=
  (if String.prefix needle hay
   then [skip (String.length needle) hay] else []) ++
  match hay with
  | EmptyString => []
  | String _ hay' => after_each needle hay'
  end.

(** A line that ends at its only line feed: what [readlines] yields
    everywhere but, possibly, in last position. *)
Fixpoint complete (l : string) : bool :=
  match l with
  | EmptyString => false
  | String c r =>
      if decide (c = LF) then bool_decide (r = EmptyString) else complete r
  end.

(** No carriage return anywhere. *)
Fixpoint cr_free (s : string) : bool :=
  match s with
  | EmptyString => true
  | String c r => if decide (c = CR) then false else cr_free r
  end.

End Py.

(** ** The run-time: disk, standard output, exits and exceptions *)

Inductive exn : Type :=
| FileNotFoundError (path : string)
| KeyError (key : nat).

Inductive result (A : Type) : Type :=
| Ret (a : A)
| SystemExit (code : nat)
| Raise (e : exn).
Arguments Ret {A} a.
Arguments SystemExit {A} code.
Arguments Raise {A} e.

Record world : Type := World {
  disk : gmap string string;
  stdout : list string
}.

Definition io (A : Type) : Type := world → result A * world.

#[global] Instance io_ret : MRet io := λ A a w, (Ret a, w).

#[global] Instance io_bind : MBind io := λ A B k m w,
  match m w with
  | (Ret a, w') => k a w'
  | (SystemExit c, w') => (SystemExit c, w')
  | (Raise e, w') => (Raise e, w')
  end.

Definition raise {A} (e : exn) : io A := λ w, (Raise e, w).

(** [exit(code)] *)
Definition exit {A} (code : nat) : io A := λ w, (SystemExit code, w).

(** [print(msg)] *)
Definition print (msg : string) : io unit := λ w,
  (Ret tt, {| disk := disk w; stdout := stdout w ++ [msg] |}).

(** [with open(path, 'r') as f: f.readlines()] *)
Definition read_lines (path : string) : io (list string) := λ w,
  match disk w !! path with
  | Some content => (Ret (Py.readlines (Py.universal_newlines content)), w)
  | None => (Raise (FileNotFoundError path), w)
  end.

(** [with open(path, 'w') as f: f.writelines(ls)]: truncate and rewrite. *)
Definition write_lines (path : string) (ls : list string) : io unit := λ w,
  (Ret tt, {| disk := <[path := Py.joined ls]> (disk w); stdout := stdout w |}).

(** [d[k]] on a [dict] with integer keys. *)
Definition dict_get (d : gmap nat string) (k : nat) : io string :=
  match d !! k with
  | Some v => mret v
  | None => raise (KeyError k)
  end.

(** ** The script *)

Definition target : string := "nodes/AIMediaGen.ts".

Definition START_MARKER : string := "// Nano Banana - Input Images".
Definition START_EXCLUDED : string := "Nano Banana - Aspect Ratio".
Definition END_MARKER : string := "// Nano Banana - Aspect Ratio".

(** The first [if] of the scan loop. *)
Definition is_start (line : string) : bool :=
  Py.contains START_MARKER line && negb (Py.contains START_EXCLUDED line).

(** The substring test of the second [if]. *)
Definition is_end (line : string) : bool :=
  Py.contains END_MARKER line.

(** The [for i, line in enumerate(lines)] loop with its [break]; [i] is the
    index of the head of [lines], [start_idx] the variable as the previous
    iterations left it.  The result is [(start_idx, end_idx)] after the
    loop. *)
Fixpoint scan_from (i : nat) (start_idx : option nat) (lines : list string)
  : option nat * option nat :=
  match lines with
  | [] => (start_idx, None)
  | line :: rest =>
      let start_idx := if is_start line then Some i else start_idx in
      if bool_decide (start_idx ≠ None) && is_end line
      then (start_idx, Some i)
      else scan_from (S i) start_idx rest
  end.

Definition scan (lines : list string) : option nat * option nat :=
  scan_from 0 None lines.

Definition header : string :=
  Py.tabs 2 "// Nano Banana - Input Images (14 separate fields)" +:+ Py.nl.

Definition ordinal_map : gmap nat string :=
  list_to_map
    [ (1, "First"); (2, "Second"); (3, "Third"); (4, "Fourth");
      (5, "Fifth"); (6, "Sixth"); (7, "Seventh"); (8, "Eighth");
      (9, "Ninth"); (10, "Tenth"); (11, "Eleventh"); (12, "Twelfth");
      (13, "Thirteenth"); (14, "Fourteenth") ].

Definition PLACEHOLDER_SUFFIX : string := " (e.g., data)".
Definition DESCRIPTION_SUFFIX : string := " (Gemini 3 Pro)".

(** The f-string, with the looked-up ordinal word already in hand. *)
Definition render (i : nat) (ordinal : string) : string :=
  Py.tabs 2 "{" +:+ Py.nl +:+
  Py.tabs 3 "displayName: 'Input Image " +:+ Py.str i +:+ "'," +:+ Py.nl +:+
  Py.tabs 3 "name: 'nbInputImage" +:+ Py.str i +:+ "'," +:+ Py.nl +:+
  Py.tabs 3 "type: 'string'," +:+ Py.nl +:+
  Py.tabs 3 "default: ''," +:+ Py.nl +:+
  Py.tabs 3 "displayOptions: {" +:+ Py.nl +:+
  Py.tabs 4 "show: {" +:+ Py.nl +:+
  Py.tabs 5 "operation: ['nanoBanana']," +:+ Py.nl +:+
  Py.tabs 4 "}," +:+ Py.nl +:+
  Py.tabs 3 "}," +:+ Py.nl +:+
  Py.tabs 3 "placeholder: 'Image URL, base64 data, or binary property name"
    +:+ (if decide (i = 1) then PLACEHOLDER_SUFFIX else EmptyString)
    +:+ "'," +:+ Py.nl +:+
  Py.tabs 3 "description: '" +:+ ordinal +:+ " input image"
    +:+ (if decide (5 ≤ i) then DESCRIPTION_SUFFIX else EmptyString)
    +:+ "'," +:+ Py.nl +:+
  Py.tabs 2 "}," +:+ Py.nl.

(** [field_template] of one iteration; [ordinal_map[i]] may raise. *)
Definition field_template (i : nat) : io string :=
  ordinal ← dict_get ordinal_map i;
  mret (render i ordinal).

(** The [for i in range(1, 15)] loop over the list [new_fields]. *)
Fixpoint generate_loop (indices : list nat) (new_fields : list string)
  : io (list string) :=
  match indices with
  | [] => mret new_fields
  | i :: rest =>
      block ← field_template i;
      generate_loop rest (new_fields ++ [block])
  end.

Definition generate : io (list string) :=
  generate_loop (Py.range 1 15) ([] ++ [header]).

Definition error_message (start_idx end_idx : option nat) : string :=
  "Error: Could not find section. start_idx=" +:+ Py.fmt_idx start_idx
    +:+ ", end_idx=" +:+ Py.fmt_idx end_idx.

Definition found_message (start_idx end_idx : nat) : string :=
  "Found section from line " +:+ Py.str (start_idx + 1)
    +:+ " to " +:+ Py.str end_idx.

Definition success_message : string :=
  "Successfully replaced the Input Images section with 14 separate fields".

(** [lines[:start_idx] + new_fields + lines[end_idx:]] *)
Definition splice (lines : list string) (start_idx end_idx : nat)
    (new_fields : list string) : list string :=
  take start_idx lines ++ new_fields ++ drop end_idx lines.

Definition main : io unit :=
  lines ← read_lines target;
  match scan lines with
  | (Some start_idx, Some end_idx) =>
      print (found_message start_idx end_idx);;
      new_fields ← generate;
      write_lines target (splice lines start_idx end_idx new_fields);;
      print success_message
  | (start_idx, end_idx) =>
      print (error_message start_idx end_idx);;
      exit 1
  end.

(** ** Closed forms and vocabulary for the statements *)

Definition ordinal_words : list string :=
  [ "First"; "Second"; "Third"; "Fourth"; "Fifth"; "Sixth"; "Seventh";
    "Eighth"; "Ninth"; "Tenth"; "Eleventh"; "Twelfth"; "Thirteenth";
    "Fourteenth" ].

(** The block of iteration [i], once the lookup has succeeded. *)
Definition block (i : nat) : string :=
  render i (default EmptyString (ordinal_map !! i)).

(** The value of [new_fields] after the generation loop. *)
Definition new_fields : list string := header :: map block (seq 1 14).

(** The text the generated items put in the file, and its lines. *)
Definition generated_text : string := Py.joined new_fields.
Definition generated_lines : list string := Py.readlines generated_text.

(** The lines the script works on, for a file content. *)
Definition lines_of (content : string) : list string :=
  Py.readlines (Py.universal_newlines content).

(** Line [i] of [lines] exists and passes the test [p]. *)
Definition marked (p : string → bool) (lines : list string) (i : nat) : Prop :=
  ∃ l, lines !! i = Some l ∧ p l = true.

Abbreviation start_at := (marked is_start).
Abbreviation end_at := (marked is_end).

(** What the scan loop has established after the lines [seen], none of
    which made it [break]. *)
Record scan_inv (seen : list string) (start_idx : option nat) : Prop := {
  inv_start : ∀ i, start_idx = Some i →
    start_at seen i ∧ ∀ k, i < k → ¬ start_at seen k;
  inv_unset : start_idx = None → ∀ k, ¬ start_at seen k;
  inv_no_end : ∀ i0 k, start_at seen i0 → i0 < k → ¬ end_at seen k
}.

(** [k] lies before the line the scan stopped at, if it stopped at one. *)
Definition before_stop (end_idx : option nat) (k : nat) : Prop :=
  ∀ j, end_idx = Some j → k < j.

(** ** Inputs used as examples *)

Definition start_line : string :=
  Py.tabs 2 "// Nano Banana - Input Images" +:+ Py.nl.
Definition end_line : string :=
  Py.tabs 2 "// Nano Banana - Aspect Ratio" +:+ Py.nl.
Definition old_line : string :=
  Py.tabs 2 "{ name: 'nbInputImages' }," +:+ Py.nl.
Definition other_line : string := "const version = 1;" +:+ Py.nl.

(** A machine with [content] in the target file and nothing printed yet. *)
Definition on_disk (content : string) : world :=
  {| disk := {[ target := content ]}; stdout := [] |}.

(** A small well-formed file: the section sits between other lines. *)
Definition small_lines : list string :=
  [other_line; start_line; old_line; old_line; end_line; other_line].

(** Two start comments before the end comment. *)
Definition two_starts : list string := [start_line; start_line; end_line].

(** The 100 lines of the worked example: start comment on line 20, end
    comment on line 25. *)
Definition hundred_lines : list string :=
  replicate 19 other_line ++ [start_line] ++ replicate 4 old_line ++
  [end_line] ++ replicate 75 other_line.

(** Files on which the scan fails. *)
Definition no_markers : list string := [other_line; other_line].
Definition end_before_start : list string :=
  [end_line; old_line; start_line; other_line].

(** A heading that names both sections. *)
Definition combined_line : string :=
  "// Nano Banana - Input Images, // Nano Banana - Aspect Ratio" +:+ Py.nl.

(** The same line with a DOS line end. *)
Definition dos (l : string) : string :=
  Py.upto Py.LF l +:+ String Py.CR Py.nl.

(** The small file as a DOS editor saves it. *)
Definition dos_content : string := Py.joined (dos <$> small_lines).

(** [n] runs of the script one after the other, each started only when the
    one before completed. *)
Fixpoint rerun (n : nat) : io unit :=
  match n with
  | O => mret tt
  | S n' => main;; rerun n'
  end.

(** An index pair of the scan, moved [n] lines down. *)
Definition shifted (n : nat) (r : option nat * option nat)
  : option nat * option nat :=
  ((λ i, n + i) <$> r.1, (λ i, n + i) <$> r.2).

(** ** The definitions at work *)

Section examples.

Example readlines_keeps_ends :
  Py.readlines ("ab" +:+ Py.nl +:+ Py.nl +:+ "c") =
  ["ab" +:+ Py.nl; Py.nl; "c"].
Proof. reflexivity. Qed.

Example universal_newlines_crlf :
  Py.universal_newlines
    ("a" +:+ String Py.CR Py.nl +:+ "b" +:+ String Py.CR "c") =
  "a" +:+ Py.nl +:+ "b" +:+ Py.nl +:+ "c".
Proof. reflexivity. Qed.

Example contains_substring :
  Py.contains "Ratio" end_line = true ∧ Py.contains "ratio" end_line = false.
Proof. by vm_compute. Qed.

Example combined_line_is_no_start :
  Py.contains START_MARKER combined_line = true ∧
  is_start combined_line = false ∧ is_end combined_line = true.
Proof. by vm_compute. Qed.

Example str_decimal : Py.str 0 = "0" ∧ Py.str 14 = "14" ∧ Py.str 184 = "184".
Proof. by vm_compute. Qed.

Example scan_small : scan small_lines = (Some 1, Some 4).
Proof. reflexivity. Qed.

Example scan_no_markers : scan no_markers = (None, None).
Proof. reflexivity. Qed.

Example scan_end_before_start : scan end_before_start = (Some 2, None).
Proof. reflexivity. Qed.

Example main_no_markers :
  main (on_disk (Py.joined no_markers)) =
    (SystemExit 1,
     {| disk := {[ target := Py.joined no_markers ]};
        stdout :=
          ["Error: Could not find section. start_idx=None, end_idx=None"] |}).
Proof. by vm_compute. Qed.

Example main_no_file :
  main {| disk := ∅; stdout := [] |} =
    (Raise (FileNotFoundError target), {| disk := ∅; stdout := [] |}).
Proof. reflexivity. Qed.

Example first_block :
  Py.readlines (block 1) =
  [ Py.tabs 2 "{" +:+ Py.nl;
    Py.tabs 3 "displayName: 'Input Image 1'," +:+ Py.nl;
    Py.tabs 3 "name: 'nbInputImage1'," +:+ Py.nl;
    Py.tabs 3 "type: 'string'," +:+ Py.nl;
    Py.tabs 3 "default: ''," +:+ Py.nl;
    Py.tabs 3 "displayOptions: {" +:+ Py.nl;
    Py.tabs 4 "show: {" +:+ Py.nl;
    Py.tabs 5 "operation: ['nanoBanana']," +:+ Py.nl;
    Py.tabs 4 "}," +:+ Py.nl;
    Py.tabs 3 "}," +:+ Py.nl;
    Py.tabs 3 "placeholder: 'Image URL, base64 data, or binary property name (e.g., data)',"
      +:+ Py.nl;
    Py.tabs 3 "description: 'First input image'," +:+ Py.nl;
    Py.tabs 2 "}," +:+ Py.nl ].
Proof. by vm_compute. Qed.

Example fifth_block_description :
  Py.readlines (block 5) !! 11 =
  Some (Py.tabs 3 "description: 'Fifth input image (Gemini 3 Pro)',"
          +:+ Py.nl).
Proof. by vm_compute. Qed.

End examples.

(** ** Facts about strings *)

Section strings.

Implicit Types (a b c s h : string) (x y : ascii).

Lemma append_empty_l s : EmptyString +:+ s = s.
Proof. reflexivity. Qed.

Lemma append_cons x a s : String x a +:+ s = String x (a +:+ s).
Proof. reflexivity. Qed.

Lemma append_empty_r s : s +:+ EmptyString = s.
Proof.
  induction s as [|x s IH]; [done|]. by rewrite append_cons, IH.
Qed.

Lemma append_assoc a b c : (a +:+ b) +:+ c = a +:+ (b +:+ c).
Proof.
  induction a as [|x a IH]; [done|]. by rewrite !append_cons, IH.
Qed.

Lemma prefix_iff a h : String.prefix a h = true ↔ ∃ r, h = a +:+ r.
Proof.
  revert h. induction a as [|x a IH]; intros h.
  - destruct h; simpl; split; eauto.
  - destruct h as [|y h]; simpl.
    + split; [done | by intros [r Hr]].
    + destruct (ascii_dec x y) as [->|Hxy].
      * rewrite IH. split; intros [r Hr]; exists r;
          rewrite ?append_cons in *; congruence.
      * split; [done | intros [r Hr]; rewrite append_cons in Hr; congruence].
Qed.

Lemma contains_here n h : String.prefix n h = true → Py.contains n h = true.
Proof. intros Hp. destruct h; cbn [Py.contains]; by rewrite Hp. Qed.

Lemma contains_later n x h :
  Py.contains n h = true → Py.contains n (String x h) = true.
Proof.
  intros Hc. cbn [Py.contains]. by destruct (String.prefix n (String x h)).
Qed.

Lemma contains_iff n h :
  Py.contains n h = true ↔ ∃ a b, h = a +:+ n +:+ b.
Proof.
  split.
  - induction h as [|y h IH]; cbn [Py.contains].
    + destruct (String.prefix n EmptyString) eqn:Hp; [|done].
      apply prefix_iff in Hp as [r Hr]. by exists EmptyString, r.
    + destruct (String.prefix n (String y h)) eqn:Hp.
      * apply prefix_iff in Hp as [r Hr]. by exists EmptyString, r.
      * intros (a & b & ->)%IH. by exists (String y a), b.
  - intros (a & b & ->). induction a as [|x a IH].
    + apply contains_here, prefix_iff. eauto.
    + rewrite append_cons. by apply contains_later.
Qed.

Lemma contains_tail a b h :
  Py.contains (a +:+ b) h = true → Py.contains b h = true.
Proof.
  rewrite !contains_iff. intros (p & q & ->).
  exists (p +:+ a), q. by rewrite !append_assoc.
Qed.

(** A decimal never reads [None]. *)
Lemma str_not_None (n : nat) : Py.str n ≠ "None".
Proof.
  assert (∀ (x : N) (s s' : string),
            s ≠ String "N" s' → pretty_N_go x s ≠ String "N" s') as Hgo.
  { intros x. induction (N.lt_wf_0 x) as [x _ IH]; intros s s' Hs.
    destruct (decide (0 < x)%N) as [Hx|Hx].
    - rewrite pretty_N_go_step by done. apply IH; [by apply N.div_lt|].
      unfold pretty_N_char. by repeat case_match.
    - replace x with 0%N by lia. by rewrite pretty_N_go_0. }
  unfold Py.str, pretty, pretty_nat, pretty, pretty_N.
  case_decide; [done|]. by apply Hgo.
Qed.

Lemma fmt_idx_None (o : option nat) : Py.fmt_idx o = "None" ↔ o = None.
Proof.
  destruct o as [n|]; simpl; [|done].
  split; [|done]. intros H. by apply str_not_None in H.
Qed.

End strings.

(** ** Lines: [readlines], [writelines] and newline translation *)

Section lines.

Implicit Types (s l : string) (ls : list string) (c : ascii).

Lemma readlines_lf s :
  Py.readlines (String Py.LF s) = Py.nl :: Py.readlines s.
Proof. cbn [Py.readlines]. by rewrite decide_True. Qed.

Lemma readlines_other c s :
  c ≠ Py.LF →
  Py.readlines (String c s) =
    match Py.readlines s with
    | [] => [String c EmptyString]
    | l :: ls => String c l :: ls
    end.
Proof. intros Hc. cbn [Py.readlines]. by rewrite decide_False. Qed.

Lemma complete_lf s :
  Py.complete (String Py.LF s) = bool_decide (s = EmptyString).
Proof. cbn [Py.complete]. by rewrite decide_True. Qed.

Lemma complete_other c s :
  c ≠ Py.LF → Py.complete (String c s) = Py.complete s.
Proof. intros Hc. cbn [Py.complete]. by rewrite decide_False. Qed.

(** Writing the lines of a text gives the text back. *)
Lemma joined_readlines s : Py.joined (Py.readlines s) = s.
Proof.
  induction s as [|c s IH]; [done|].
  destruct (decide (c = Py.LF)) as [->|Hc].
  - rewrite readlines_lf. cbn [Py.joined]. by rewrite IH.
  - rewrite readlines_other by done.
    destruct (Py.readlines s) as [|l ls]; cbn [Py.joined] in *.
    + by rewrite <- IH.
    + by rewrite append_cons, IH.
Qed.

Lemma joined_app ls1 ls2 :
  Py.joined (ls1 ++ ls2) = Py.joined ls1 +:+ Py.joined ls2.
Proof.
  induction ls1 as [|l ls1 IH]; [done|].
  cbn [Py.joined app]. by rewrite IH, append_assoc.
Qed.

(** A complete line in front of a text is the first line read. *)
Lemma readlines_complete_app l s :
  Py.complete l = true → Py.readlines (l +:+ s) = l :: Py.readlines s.
Proof.
  induction l as [|c l IH]; [done|].
  destruct (decide (c = Py.LF)) as [->|Hc].
  - rewrite complete_lf. intros ->%bool_decide_eq_true.
    by rewrite append_cons, append_empty_l, readlines_lf.
  - rewrite complete_other by done. intros Hl.
    by rewrite append_cons, readlines_other, IH.
Qed.

Lemma readlines_joined_app ls s :
  Forall (λ l, Py.complete l = true) ls →
  Py.readlines (Py.joined ls +:+ s) = ls ++ Py.readlines s.
Proof.
  induction 1 as [|l ls Hl _ IH]; [done|].
  cbn [Py.joined app].
  by rewrite append_assoc, readlines_complete_app, IH.
Qed.

(** Every line read is complete, but possibly the last one. *)
Lemma readlines_take_complete s n :
  n < length (Py.readlines s) →
  Forall (λ l, Py.complete l = true) (take n (Py.readlines s)).
Proof.
  revert n. induction s as [|c s IH]; intros n; [simpl; lia|].
  destruct (decide (c = Py.LF)) as [->|Hc].
  - rewrite readlines_lf. destruct n as [|n]; [constructor|].
    cbn [take length]. intros Hn. constructor; [done|].
    apply IH. lia.
  - rewrite readlines_other by done.
    destruct (Py.readlines s) as [|l ls]; destruct n as [|n];
      cbn [take length]; intros Hn; [constructor | lia | constructor |].
    specialize (IH (S n)). cbn [take length] in IH.
    apply Forall_cons_1 in IH as [??]; [|lia].
    constructor; [by rewrite complete_other | done].
Qed.

(** Reading back a written tail of the lines gives that tail. *)
Lemma readlines_joined_drop s n :
  Py.readlines (Py.joined (drop n (Py.readlines s))) = drop n (Py.readlines s).
Proof.
  destruct (decide (n < length (Py.readlines s))) as [Hn|Hn].
  - pose proof (readlines_take_complete s n Hn) as Hc.
    pose proof (readlines_joined_app _
                  (Py.joined (drop n (Py.readlines s))) Hc) as Happ.
    rewrite <- joined_app, take_drop, joined_readlines in Happ.
    rewrite <- (take_drop n (Py.readlines s)) in Happ at 1.
    by apply app_inv_head in Happ.
  - by rewrite drop_ge by lia.
Qed.

Lemma cr_free_cons c s :
  Py.cr_free (String c s) = bool_decide (c ≠ Py.CR) && Py.cr_free s.
Proof.
  cbn [Py.cr_free]. destruct (decide (c = Py.CR)).
  - by rewrite bool_decide_eq_false_2 by tauto.
  - by rewrite bool_decide_eq_true_2.
Qed.

Lemma cr_free_app s1 s2 :
  Py.cr_free (s1 +:+ s2) = Py.cr_free s1 && Py.cr_free s2.
Proof.
  induction s1 as [|c s1 IH]; [done|].
  by rewrite append_cons, !cr_free_cons, IH, andb_assoc.
Qed.

(** Text-mode reading leaves no carriage return. *)
Lemma universal_newlines_cr_free s :
  Py.cr_free (Py.universal_newlines s) = true.
Proof.
  induction s as [|c s IH]; [done|].
  cbn [Py.universal_newlines]. destruct (decide (c = Py.CR)) as [->|Hc].
  - rewrite cr_free_cons, bool_decide_eq_true_2 by done.
    destruct s as [|c' s']; [done|].
    destruct (decide (c' = Py.LF)) as [->|Hc']; [|done].
    cbn [Py.universal_newlines] in IH.
    rewrite decide_False, cr_free_cons in IH by done.
    by apply andb_prop in IH as [_ ?].
  - by rewrite cr_free_cons, bool_decide_eq_true_2, IH.
Qed.

(** ... and leaves alone a text that has none. *)
Lemma universal_newlines_id s :
  Py.cr_free s = true → Py.universal_newlines s = s.
Proof.
  induction s as [|c s IH]; [done|].
  rewrite cr_free_cons. intros [Hc Hs]%andb_prop.
  apply bool_decide_eq_true in Hc.
  cbn [Py.universal_newlines]. by rewrite decide_False, IH.
Qed.

Lemma cr_free_joined_take ls n :
  Py.cr_free (Py.joined ls) = true → Py.cr_free (Py.joined (take n ls)) = true.
Proof.
  rewrite <- (take_drop n ls) at 1. rewrite joined_app, cr_free_app.
  by intros [??]%andb_prop.
Qed.

Lemma cr_free_joined_drop ls n :
  Py.cr_free (Py.joined ls) = true → Py.cr_free (Py.joined (drop n ls)) = true.
Proof.
  rewrite <- (take_drop n ls) at 1. rewrite joined_app, cr_free_app.
  by intros [??]%andb_prop.
Qed.

End lines.

(** ** The marker scan *)

Section scan.

Implicit Types (l line : string) (lines seen rest : list string).
Implicit Types (i j k : nat) (st s e : option nat).

Lemma end_marker_tail : END_MARKER = "// " +:+ START_EXCLUDED.
Proof. reflexivity. Qed.

(** A line that passes the start test fails the end test: the end marker
    contains the excluded text. *)
Lemma is_start_not_end l : is_start l = true → is_end l = false.
Proof.
  unfold is_start, is_end. intros [_ Hx]%andb_prop.
  destruct (Py.contains END_MARKER l) eqn:He; [|done].
  rewrite end_marker_tail in He. apply contains_tail in He.
  by rewrite He in Hx.
Qed.

Lemma is_end_not_start l : is_end l = true → is_start l = false.
Proof.
  intros He. destruct (is_start l) eqn:Hs; [|done].
  apply is_start_not_end in Hs. congruence.
Qed.

Lemma scan_from_nil i st : scan_from i st [] = (st, None).
Proof. reflexivity. Qed.

(** One iteration that ends in [break]. *)
Lemma scan_from_break i st line rest :
  st ≠ None → is_end line = true →
  scan_from i st (line :: rest) = (st, Some i).
Proof.
  intros Hst He. cbn [scan_from].
  rewrite (is_end_not_start _ He), He.
  by rewrite bool_decide_eq_true_2.
Qed.

(** One iteration that goes on to the next line. *)
Lemma scan_from_next i st line rest :
  (st = None ∧ is_start line = false) ∨ is_end line = false →
  scan_from i st (line :: rest) =
    scan_from (S i) (if is_start line then Some i else st) rest.
Proof.
  intros H. cbn [scan_from].
  destruct H as [[-> Hs]| ->]; [|by rewrite andb_false_r].
  rewrite Hs. by rewrite bool_decide_eq_false_2 by (intros ?; done).
Qed.

(** The two lemmas above cover every iteration. *)
Lemma scan_from_cases i st line rest :
  (st ≠ None ∧ is_end line = true) ∨
  (st = None ∧ is_start line = false) ∨ is_end line = false.
Proof.
  destruct (is_end line) eqn:He; [|by auto].
  rewrite (is_end_not_start _ He). destruct st; [left|right; left]; done.
Qed.

Lemma scan_from_quiet i st lines :
  Forall (λ l, is_start l = false ∧ is_end l = false) lines →
  scan_from i st lines = (st, None).
Proof.
  intros H. revert i. induction H as [|l lines [Hs He] _ IH]; intros i.
  - done.
  - rewrite scan_from_next by auto. by rewrite Hs.
Qed.

Lemma scan_from_app i st lines rest :
  scan_from i st (lines ++ rest) =
    match scan_from i st lines with
    | (st', None) => scan_from (i + length lines) st' rest
    | found => found
    end.
Proof.
  revert i st. induction lines as [|l lines IH]; intros i st.
  - cbn [app length scan_from]. by rewrite Nat.add_0_r.
  - cbn [app length].
    destruct (scan_from_cases i st l lines) as [[Hst He]|Hnext].
    + by rewrite !scan_from_break.
    + rewrite !scan_from_next by done. rewrite IH.
      by replace (S i + length lines) with (i + S (length lines)) by lia.
Qed.

(** The loop did not stop before the line it reports as the end. *)
Lemma scan_from_take i st lines s j n :
  scan_from i st lines = (s, Some j) → i + n ≤ j →
  ∃ st', scan_from i st (take n lines) = (st', None).
Proof.
  revert i st n. induction lines as [|l lines IH]; intros i st n.
  - done.
  - destruct n as [|n]; [by eauto|]. cbn [take].
    destruct (scan_from_cases i st l lines) as [[Hst He]|Hnext].
    + rewrite scan_from_break by done. intros [= -> <-]. lia.
    + rewrite !scan_from_next by done. intros Hscan Hn.
      apply (IH _ _ n) in Hscan; [done | lia].
Qed.

Lemma marked_lt p lines i : marked p lines i → i < length lines.
Proof. intros (l & Hl & _). by apply lookup_lt_Some in Hl. Qed.

Lemma marked_app_l p lines rest i :
  i < length lines → marked p (lines ++ rest) i ↔ marked p lines i.
Proof. intros Hi. unfold marked. by rewrite lookup_app_l. Qed.

Lemma marked_snoc p lines line k :
  marked p (lines ++ [line]) k ↔
  marked p lines k ∨ (k = length lines ∧ p line = true).
Proof.
  unfold marked. split.
  - intros (l & Hl & Hp).
    apply lookup_app_Some in Hl as [Hl|[Hk Hl]]; [by eauto|].
    apply list_lookup_singleton_Some in Hl as [Hk' ->]. right. split; [lia|done].
  - intros [(l & Hl & Hp)|[-> Hp]].
    + exists l. split; [|done]. apply lookup_app_l_Some, Hl.
    + exists line. split; [|done].
      by rewrite lookup_app_r, Nat.sub_diag.
Qed.

Lemma marked_middle p lines line rest :
  p line = true → marked p (lines ++ line :: rest) (length lines).
Proof.
  intros Hp. exists line. split; [|done]. by rewrite list_lookup_middle.
Qed.

Lemma scan_inv_nil : scan_inv [] None.
Proof.
  split; [done| |]; intros; intros (l & Hl & _); by rewrite lookup_nil in Hl.
Qed.

(** An iteration without [break] keeps the invariant. *)
Lemma scan_inv_step seen st line :
  scan_inv seen st →
  (st = None ∧ is_start line = false) ∨ is_end line = false →
  scan_inv (seen ++ [line])
           (if is_start line then Some (length seen) else st).
Proof.
  intros [Hstart Hunset Hnoend] Hnext. split.
  - intros i Hi. destruct (is_start line) eqn:Hs.
    + injection Hi as <-. split.
      * apply marked_snoc. by right.
      * intros k Hk Hm. apply marked_lt in Hm.
        rewrite length_app in Hm. simpl in Hm. lia.
    + destruct (Hstart i Hi) as [Hm Hlast]. split.
      * apply marked_snoc. by left.
      * intros k Hk [Hm'|[-> Hs']]%marked_snoc; [by eapply Hlast|congruence].
  - intros Hst k. destruct (is_start line) eqn:Hs; [done|].
    intros [Hm|[-> Hs']]%marked_snoc; [by eapply Hunset|congruence].
  - intros i0 k Hi0 Hk [He|[-> He]]%marked_snoc.
    + apply marked_snoc in Hi0 as [Hi0|[-> _]].
      * by eapply Hnoend.
      * apply marked_lt in He. lia.
    + apply marked_snoc in Hi0 as [Hi0|[-> _]]; [|lia].
      destruct Hnext as [[-> _]|Hne]; [by eapply Hunset|congruence].
Qed.

(** What the loop returns, read on the whole line sequence. *)
Lemma scan_from_post seen rest st s e :
  scan_inv seen st →
  scan_from (length seen) st rest = (s, e) →
  let lines := seen ++ rest in
  (∀ i, s = Some i →
     start_at lines i ∧ ∀ k, i < k → before_stop e k → ¬ start_at lines k) ∧
  (s = None → ∀ k, ¬ start_at lines k) ∧
  (∀ j, e = Some j → end_at lines j ∧ ∃ i, s = Some i ∧ i < j) ∧
  (∀ i0 k, start_at lines i0 → i0 < k → before_stop e k → ¬ end_at lines k).
Proof.
  revert seen st. induction rest as [|line rest IH]; intros seen st Hinv.
  - rewrite scan_from_nil. intros [= <- <-]. cbn zeta. rewrite app_nil_r.
    destruct Hinv as [Hstart Hunset Hnoend].
    split_and!; [|done|done|by eauto].
    intros i Hi. destruct (Hstart i Hi). split; by eauto.
  - destruct (scan_from_cases (length seen) st line rest)
      as [[Hst He]|Hnext].
    + rewrite scan_from_break by done. intros [= <- <-]. cbn zeta.
      destruct Hinv as [Hstart Hunset Hnoend].
      destruct st as [i|]; [clear Hst|done].
      destruct (Hstart i eq_refl) as [Hi Hlast].
      pose proof (marked_lt _ _ _ Hi) as Hlt.
      assert (∀ k, before_stop (Some (length seen)) k → k < length seen)
        as Hstop by (intros k Hk; by apply Hk).
      split_and!.
      * intros ? [= <-]. split; [by apply marked_app_l|].
        intros k Hk Hb%Hstop. rewrite marked_app_l by done. by apply Hlast.
      * done.
      * intros ? [= <-]. split; [by apply marked_middle|by eauto].
      * intros i0 k Hi0 Hk Hb%Hstop.
        rewrite marked_app_l in Hi0 by lia. rewrite marked_app_l by done.
        by eapply Hnoend.
    + rewrite scan_from_next by done. intros Hscan.
      pose proof (scan_inv_step _ _ _ Hinv Hnext) as Hinv'.
      replace (S (length seen)) with (length (seen ++ [line])) in Hscan
        by (rewrite length_app; simpl; lia).
      specialize (IH _ _ Hinv' Hscan). cbn zeta in *.
      by rewrite <- app_assoc in IH.
Qed.

Lemma scan_from_ge i st lines s j :
  scan_from i st lines = (s, Some j) → i ≤ j.
Proof.
  revert i st. induction lines as [|l lines IH]; intros i st; [done|].
  destruct (scan_from_cases i st l lines) as [[Hne He]|Hnext].
  - rewrite scan_from_break by done. intros [= _ <-]. lia.
  - rewrite scan_from_next by done. intros ?%IH. lia.
Qed.

(** The lines after the reported end line play no part in the result. *)
Lemma scan_from_stop i st lines s j more :
  scan_from i st lines = (s, Some j) →
  scan_from i st (take (S j - i) lines ++ more) = (s, Some j).
Proof.
  revert i st. induction lines as [|l lines IH]; intros i st; [done|].
  destruct (scan_from_cases i st l lines) as [[Hne He]|Hnext].
  - rewrite scan_from_break by done. intros [= <- <-].
    replace (S i - i) with 1 by lia. cbn [take app].
    by rewrite scan_from_break.
  - rewrite scan_from_next by done. intros Hscan.
    pose proof (scan_from_ge _ _ _ _ _ Hscan) as Hge.
    replace (S j - i) with (S (S j - S i)) by lia. cbn [take app].
    rewrite scan_from_next by done. by apply IH.
Qed.

(** With both indices set, the start index is the smaller one. *)
Lemma scan_from_lt i st lines a b :
  (∀ a0, st = Some a0 → a0 < i) →
  scan_from i st lines = (Some a, Some b) → a < b.
Proof.
  revert i st. induction lines as [|l lines IH]; intros i st Hst; [done|].
  destruct (scan_from_cases i st l lines) as [[Hne He]|Hnext].
  - rewrite scan_from_break by done. intros [= -> <-]. by apply Hst.
  - rewrite scan_from_next by done. apply IH.
    intros a0. destruct (is_start l); [intros [= <-]; lia|].
    intros ?%Hst. lia.
Qed.

End scan.

(** ** The generated fields *)

Section generation.

Implicit Types (w : world) (i : nat).

Lemma bind_run {A B} (m : io A) (k : A → io B) w :
  (m ≫= k) w =
    match m w with
    | (Ret a, w') => k a w'
    | (SystemExit c, w') => (SystemExit c, w')
    | (Raise x, w') => (Raise x, w')
    end.
Proof. reflexivity. Qed.

(** Every key the loop asks for is in the dictionary, with the word of
    that rank. *)
Lemma ordinal_map_lookup i :
  1 ≤ i ≤ 14 → ordinal_map !! i = ordinal_words !! (i - 1) ∧
               is_Some (ordinal_map !! i).
Proof.
  intros Hi.
  assert (i ∈ seq 1 14) as Hin by (apply elem_of_seq; lia).
  revert Hin. generalize i. apply Forall_forall.
  repeat constructor; by vm_compute; eauto.
Qed.

Lemma field_template_ok i w :
  1 ≤ i ≤ 14 → field_template i w = (Ret (block i), w).
Proof.
  intros [w' Hw]%ordinal_map_lookup%proj2.
  unfold field_template, block. rewrite bind_run.
  unfold dict_get. by rewrite Hw.
Qed.

Lemma generate_loop_ok indices acc w :
  Forall (λ i, 1 ≤ i ≤ 14) indices →
  generate_loop indices acc w = (Ret (acc ++ map block indices), w).
Proof.
  intros H. revert acc. induction H as [|i indices Hi _ IH]; intros acc.
  - cbn [generate_loop map]. by rewrite app_nil_r.
  - cbn [generate_loop map]. rewrite bind_run, field_template_ok by done.
    by rewrite IH, <- app_assoc.
Qed.

(** The generation loop runs to its end and leaves [new_fields]. *)
Lemma generate_ok w : generate w = (Ret new_fields, w).
Proof.
  unfold generate. rewrite generate_loop_ok; [done|].
  apply Forall_forall. intros i Hi%elem_of_seq. lia.
Qed.

Lemma generated_lines_length : length generated_lines = 1 + 14 * 13.
Proof. by vm_compute. Qed.

Lemma generated_lines_complete :
  Forall (λ l, Py.complete l = true) generated_lines.
Proof. apply (bool_decide_unpack _). by vm_compute. Qed.

(** The header line passes the start test; no other generated line passes
    either test. *)
Lemma generated_lines_scan :
  ∃ body, generated_lines = header :: body ∧
    is_start header = true ∧ is_end header = false ∧
    Forall (λ l, is_start l = false ∧ is_end l = false) body.
Proof.
  eexists. split; [by vm_compute|].
  split_and!; [by vm_compute..|].
  apply (bool_decide_unpack _). by vm_compute.
Qed.

Lemma generated_text_cr_free : Py.cr_free generated_text = true.
Proof. by vm_compute. Qed.

(** Generated text in front of a text reads as the generated lines. *)
Lemma readlines_generated s :
  Py.readlines (generated_text +:+ s) = generated_lines ++ Py.readlines s.
Proof.
  rewrite <- (joined_readlines generated_text).
  fold generated_lines. apply readlines_joined_app, generated_lines_complete.
Qed.

End generation.

(** ** Runs of the script *)

Section runs.

Implicit Types (w : world) (content : string) (s e : nat).

Lemma main_missing w :
  disk w !! target = None →
  main w = (Raise (FileNotFoundError target), w).
Proof.
  intros Hd. unfold main. rewrite bind_run. unfold read_lines. by rewrite Hd.
Qed.

(** The run when a marker is not found. *)
Lemma main_not_found w content (s e : option nat) :
  disk w !! target = Some content →
  scan (lines_of content) = (s, e) →
  s = None ∨ e = None →
  main w = (SystemExit 1,
            {| disk := disk w; stdout := stdout w ++ [error_message s e] |}).
Proof.
  intros Hd Hscan Hnone. unfold main. rewrite bind_run.
  unfold read_lines. rewrite Hd. fold (lines_of content). rewrite Hscan.
  destruct Hnone as [-> | ->]; [|destruct s]; by rewrite bind_run.
Qed.

(** The run when both markers are found. *)
Lemma main_found w content s e :
  disk w !! target = Some content →
  scan (lines_of content) = (Some s, Some e) →
  main w =
    (Ret tt,
     {| disk := <[target :=
                    Py.joined (splice (lines_of content) s e new_fields)]>
                  (disk w);
        stdout := stdout w ++ [found_message s e; success_message] |}).
Proof.
  intros Hd Hscan. unfold main. rewrite bind_run.
  unfold read_lines. rewrite Hd. fold (lines_of content). rewrite Hscan.
  rewrite bind_run. unfold print at 1. rewrite bind_run, generate_ok.
  rewrite bind_run. unfold write_lines, print. cbn [disk stdout].
  by rewrite <- app_assoc.
Qed.

(** A run that completes has found both markers. *)
Lemma main_completed w w' :
  main w = (Ret tt, w') →
  ∃ content s e,
    disk w !! target = Some content ∧
    scan (lines_of content) = (Some s, Some e).
Proof.
  destruct (disk w !! target) as [content|] eqn:Hd.
  - destruct (scan (lines_of content)) as [[s|] [e|]] eqn:Hscan; [by eauto|..].
    all: erewrite main_not_found by eauto; done.
  - by rewrite main_missing.
Qed.

(** What a successful scan tells about the positions. *)
Lemma scan_found_bounds lines s e :
  scan lines = (Some s, Some e) →
  s < e ∧ ∃ l, lines !! e = Some l ∧ is_end l = true.
Proof.
  intros Hscan. split.
  - eapply scan_from_lt; [|exact Hscan]. done.
  - pose proof (scan_from_post [] lines None _ _ scan_inv_nil Hscan)
      as (_ & _ & Hend & _).
    by destruct (Hend e eq_refl) as [? _].
Qed.

Lemma splice_text lines s e :
  Py.joined (splice lines s e new_fields) =
  Py.joined (take s lines) +:+ generated_text +:+ Py.joined (drop e lines).
Proof. unfold splice. by rewrite !joined_app. Qed.

(** The lines a second run reads from the file a first run wrote. *)
Lemma rerun_lines content s e :
  let lines := lines_of content in
  scan lines = (Some s, Some e) →
  lines_of (Py.joined (splice lines s e new_fields)) =
  take s lines ++ generated_lines ++ drop e lines.
Proof.
  intros lines Hscan.
  destruct (scan_found_bounds _ _ _ Hscan) as [Hse (l & Hl%lookup_lt_Some & _)].
  assert (Py.cr_free (Py.joined lines) = true) as Hcr.
  { unfold lines, lines_of.
    by rewrite joined_readlines, universal_newlines_cr_free. }
  unfold lines_of at 1. rewrite universal_newlines_id.
  - rewrite splice_text, readlines_joined_app, readlines_generated.
    + unfold lines, lines_of. by rewrite readlines_joined_drop.
    + apply readlines_take_complete. fold (lines_of content). fold lines. lia.
  - rewrite splice_text, !cr_free_app, generated_text_cr_free.
    by rewrite cr_free_joined_take, cr_free_joined_drop.
Qed.

(** The scan of those lines: the header line is the start, the old end
    line is the end. *)
Lemma rerun_scan lines s e :
  scan lines = (Some s, Some e) →
  scan (take s lines ++ generated_lines ++ drop e lines) =
    (Some s, Some (s + length generated_lines)).
Proof.
  intros Hscan.
  destruct (scan_found_bounds _ _ _ Hscan) as [Hse (l & Hl & He)].
  pose proof (lookup_lt_Some _ _ _ Hl) as Hlt.
  destruct (scan_from_take 0 None lines _ _ s Hscan) as [st' Hpre]; [lia|].
  destruct generated_lines_scan as (body & -> & Hhs & Hhe & Hquiet).
  unfold scan. rewrite scan_from_app, Hpre, length_take_le by lia.
  cbn [app Nat.add]. rewrite scan_from_next, Hhs by auto.
  rewrite scan_from_app, scan_from_quiet by done.
  rewrite (drop_S _ _ _ Hl), scan_from_break by done.
  cbn [length]. do 2 f_equal. lia.
Qed.

Lemma rerun_splice lines s e :
  s < length lines →
  splice (take s lines ++ generated_lines ++ drop e lines)
         s (s + length generated_lines) new_fields =
  splice lines s e new_fields.
Proof.
  intros Hs. unfold splice. f_equal; [|f_equal].
  - rewrite take_app_length'; [done|]. rewrite length_take. lia.
  - rewrite drop_app_add' by (rewrite length_take; lia).
    by rewrite drop_app_length.
Qed.

(** A run on the file that a successful run wrote: it finds the header
    line and the old end line, and writes the same text again. *)
Lemma rerun_main w content s e :
  scan (lines_of content) = (Some s, Some e) →
  let out := Py.joined (splice (lines_of content) s e new_fields) in
  disk w !! target = Some out →
  scan (lines_of out) = (Some s, Some (s + length generated_lines)) ∧
  main w =
    (Ret tt,
     {| disk := <[target := out]> (disk w);
        stdout := stdout w ++ [found_message s (s + length generated_lines);
                               success_message] |}).
Proof.
  intros Hscan out Hd.
  destruct (scan_found_bounds _ _ _ Hscan) as [Hse (l & Hl%lookup_lt_Some & _)].
  assert (scan (lines_of out) = (Some s, Some (s + length generated_lines)))
    as Hscan'.
  { unfold out. rewrite rerun_lines by done. by apply rerun_scan. }
  split; [done|].
  rewrite (main_found _ _ _ _ Hd Hscan'). do 3 f_equal.
  unfold out at 1. rewrite rerun_lines by done.
  rewrite rerun_splice; [done | lia].
Qed.

End runs.

(** ** The properties of the script *)

(** C7: whenever the scan leaves both [start_idx] and [end_idx] set, the
    start index is strictly smaller than the end index. *)
Theorem scan_start_before_end (lines : list string) (s e : nat) :
  scan lines = (Some s, Some e) → s < e.
Proof. apply scan_from_lt. done. Qed.

Lemma scan_start_before_end_witness :
  scan small_lines = (Some 1, Some 4) ∧ 1 < 4.
Proof.
  split; [reflexivity|].
  apply (scan_start_before_end small_lines 1 4). reflexivity.
Defined.

(** C2, as stated, fails: the scan does not keep the first line that passes
    the start test.  With two such lines before the end marker, the second
    one is recorded. *)
Lemma scan_start_not_first :
  start_at two_starts 0 ∧
  Py.contains END_MARKER start_line = false ∧
  scan two_starts = (Some 1, Some 2) ∧
  ¬ (∀ (lines : list string) (s e : option nat) (i : nat),
       scan lines = (s, e) →
       start_at lines i → (∀ k, k < i → ¬ start_at lines k) →
       s = Some i).
Proof.
  assert (start_at two_starts 0) as H0 by (exists start_line; by vm_compute).
  split_and!; [done | by vm_compute | by vm_compute |].
  intros Hclaim.
  assert (Some 1 = Some 0) as Habs; [|discriminate Habs].
  apply (Hclaim two_starts (Some 1) (Some 2) 0); [by vm_compute | done |].
  intros k Hk. lia.
Qed.

(** C2, amended: for every line sequence, the start index the scan records
    is the index of the last line, before the line it stops at, that
    contains the start marker and not the excluded text; it is unset only
    when no line passes that test.  The end index, when set, is the index of
    a line containing the end marker that lies after the recorded start; no
    line after the first start line and before the stop contains the end
    marker, so it is the first such line after the first start line.  The
    scan stops there: the lines after the end index do not influence the
    result. *)
Theorem scan_records (lines : list string) (s e : option nat) :
  scan lines = (s, e) →
  (∀ i, s = Some i →
     start_at lines i ∧ ∀ k, i < k → before_stop e k → ¬ start_at lines k) ∧
  (s = None → ∀ k, ¬ start_at lines k) ∧
  (∀ j, e = Some j → end_at lines j ∧ ∃ i, s = Some i ∧ i < j) ∧
  (∀ i0 k, start_at lines i0 → i0 < k → before_stop e k → ¬ end_at lines k) ∧
  (∀ j, e = Some j →
     ∀ more, scan (take (S j) lines ++ more) = (s, e)).
Proof.
  intros Hscan.
  pose proof (scan_from_post [] lines None s e scan_inv_nil Hscan)
    as (Hstart & Hunset & Hend & Hfirst).
  split_and!; [done..|].
  intros j -> more. unfold scan.
  rewrite <- (Nat.sub_0_r (S j)). by apply scan_from_stop.
Qed.

Lemma scan_records_witness :
  scan two_starts = (Some 1, Some 2) ∧
  start_at two_starts 1 ∧ end_at two_starts 2 ∧
  scan (take 3 two_starts ++ [start_line; end_line]) = (Some 1, Some 2).
Proof.
  split; [reflexivity|].
  destruct (scan_records two_starts (Some 1) (Some 2) eq_refl)
    as (Hstart & _ & Hend & _ & Hstop).
  split; [exact (proj1 (Hstart 1 eq_refl))|].
  split; [exact (proj1 (Hend 2 eq_refl))|].
  exact (Hstop 2 eq_refl [start_line; end_line]).
Defined.

(** C4: when both markers are located, the line sequence written to the file
    is the lines strictly before the start index, then the generated items,
    then the lines from the end index onward.  The end-marker line is the
    first line of that trailing segment; the lines before the start index
    and from the end index onward are the input's, unchanged and in place. *)
Theorem splice_keeps_outside (w : world) (content : string) (s e : nat) :
  disk w !! target = Some content →
  scan (lines_of content) = (Some s, Some e) →
  let lines := lines_of content in
  let new_content := take s lines ++ new_fields ++ drop e lines in
  (∃ w', main w = (Ret tt, w') ∧
         disk w' !! target = Some (Py.joined new_content)) ∧
  (∃ l, lines !! e = Some l ∧ is_end l = true ∧
        drop e lines = l :: drop (S e) lines ∧
        new_content !! (s + length new_fields) = Some l) ∧
  (∀ k, k < s → new_content !! k = lines !! k) ∧
  (∀ k, new_content !! (s + length new_fields + k) = lines !! (e + k)).
Proof.
  intros Hd Hscan lines new_content.
  destruct (scan_found_bounds _ _ _ Hscan) as [Hse (l & Hl & He)].
  pose proof (lookup_lt_Some _ _ _ Hl) as Hlt. fold lines in Hl, Hlt.
  assert (length (take s lines) = s) as Hlen by (rewrite length_take; lia).
  assert (∀ k, new_content !! (s + length new_fields + k) = lines !! (e + k))
    as Htail.
  { intros k. unfold new_content.
    rewrite lookup_app_r by lia. rewrite Hlen.
    rewrite lookup_app_r by lia. rewrite lookup_drop. f_equal. lia. }
  split_and!.
  - eexists. split; [by apply main_found|].
    cbn [disk]. by rewrite lookup_insert_eq.
  - exists l. split_and!; [done | done | by apply drop_S |].
    specialize (Htail 0). by rewrite !Nat.add_0_r, Hl in Htail.
  - intros k Hk. unfold new_content.
    rewrite lookup_app_l by lia. by rewrite lookup_take_lt.
  - done.
Qed.

Lemma splice_keeps_outside_witness :
  let w := on_disk (Py.joined small_lines) in
  disk w !! target = Some (Py.joined small_lines) ∧
  scan (lines_of (Py.joined small_lines)) = (Some 1, Some 4) ∧
  ∃ w', main w = (Ret tt, w') ∧
        disk w' !! target =
          Some (Py.joined (take 1 small_lines ++ new_fields
                             ++ drop 4 small_lines)).
Proof.
  assert (lines_of (Py.joined small_lines) = small_lines) as Hl
    by reflexivity.
  split; [reflexivity|]. split; [reflexivity|].
  destruct (splice_keeps_outside (on_disk (Py.joined small_lines))
              (Py.joined small_lines) 1 4 eq_refl eq_refl)
    as (Hrun & _).
  rewrite Hl in Hrun. exact Hrun.
Defined.

(** C3, as stated, fails on its own worked example: with the start comment
    on line 20 and the end comment on line 25 of a 100-line file, the file
    written has 278 lines, not 100 - (25 - 20) + 1 + 14 = 110, and its line
    35 is a generated line, not the old line 25.  Each generated block is
    one item of the written sequence but thirteen lines of text. *)
Lemma output_line_count_example :
  let content := Py.joined hundred_lines in
  lines_of content = hundred_lines ∧
  length hundred_lines = 100 ∧
  hundred_lines !! 19 = Some start_line ∧
  hundred_lines !! 24 = Some end_line ∧
  scan hundred_lines = (Some 19, Some 24) ∧
  ∃ w' out,
    main (on_disk content) = (Ret tt, w') ∧
    disk w' !! target = Some out ∧
    length (lines_of out) = 278 ∧
    length (lines_of out) ≠ 100 - (25 - 20) + 1 + 14 ∧
    lines_of out !! 34 ≠ hundred_lines !! 24.
Proof.
  cbn zeta.
  assert (lines_of (Py.joined hundred_lines) = hundred_lines) as Hl
    by (by vm_compute).
  assert (scan hundred_lines = (Some 19, Some 24)) as Hscan
    by (by vm_compute).
  split_and!; [done | done | done | done | done |].
  eexists _, _. split; [|split].
  - apply (main_found _ (Py.joined hundred_lines) 19 24); [done|].
    by rewrite Hl.
  - cbn [disk]. apply lookup_insert_eq.
  - rewrite rerun_lines by (by rewrite Hl). rewrite Hl.
    split_and!; by vm_compute.
Qed.

(** C3, amended: when both markers are located at [s] and [e], the line
    sequence handed to the write has [s] + 1 + 14 + (n - [e]) items for an
    input of n lines: the lines before the start, the header, one item per
    block, the lines from the end marker onward.  Each block holds thirteen
    lines, so the file written has [s] + 1 + 14 * 13 + (n - [e]) lines.  The
    generated text contains the field-name pattern exactly 14 times, followed
    by the indices 1 to 14 in order. *)
Theorem output_counts (w : world) (content : string) (s e : nat) :
  disk w !! target = Some content →
  scan (lines_of content) = (Some s, Some e) →
  let lines := lines_of content in
  let new_content := splice lines s e new_fields in
  length new_content = s + 1 + 14 + (length lines - e) ∧
  (∃ w', main w = (Ret tt, w') ∧
         disk w' !! target = Some (Py.joined new_content) ∧
         length (lines_of (Py.joined new_content)) =
           s + 1 + 14 * 13 + (length lines - e)) ∧
  Py.upto "'" <$> Py.after_each "name: 'nbInputImage" generated_text =
    Py.str <$> seq 1 14.
Proof.
  intros Hd Hscan lines new_content.
  destruct (scan_found_bounds _ _ _ Hscan) as [Hse (l & Hl%lookup_lt_Some & _)].
  fold lines in Hl. split_and!.
  - unfold new_content, splice.
    rewrite !length_app, length_take, length_drop. simpl. lia.
  - eexists. split; [by apply main_found|]. split.
    + cbn [disk]. apply lookup_insert_eq.
    + unfold new_content, lines. rewrite rerun_lines by done. fold lines.
      rewrite !length_app, length_take, length_drop, generated_lines_length.
      lia.
  - by vm_compute.
Qed.

Lemma output_counts_witness :
  let w := on_disk (Py.joined small_lines) in
  disk w !! target = Some (Py.joined small_lines) ∧
  scan (lines_of (Py.joined small_lines)) = (Some 1, Some 4) ∧
  length (splice (lines_of (Py.joined small_lines)) 1 4 new_fields) =
    1 + 1 + 14 + (length (lines_of (Py.joined small_lines)) - 4).
Proof.
  split; [reflexivity|]. split; [reflexivity|].
  exact (proj1 (output_counts (on_disk (Py.joined small_lines))
                  (Py.joined small_lines) 1 4 eq_refl eq_refl)).
Defined.

(** C5: the generation yields one header comment line followed by one block
    for each [i] from 1 to 14.  Block [i] carries the numeral [i] in its
    display name and in its field name and the ordinal word of rank [i] in
    its description; the example-placeholder suffix is in block [i] exactly
    when [i] is 1, the extra description suffix exactly when [i] is 5 or
    more. *)
Theorem generated_block_shape (i : nat) :
  1 ≤ i ≤ 14 →
  (∀ w, generate w = (Ret (header :: (block <$> seq 1 14)), w)) ∧
  Py.complete header = true ∧
  String.prefix (Py.tabs 2 "//") header = true ∧
  (header :: (block <$> seq 1 14)) !! i = Some (block i) ∧
  ∃ word,
    ordinal_words !! (i - 1) = Some word ∧
    block i = render i word ∧
    Py.contains ("displayName: 'Input Image " +:+ Py.str i +:+ "',")
                (block i) = true ∧
    Py.contains ("name: 'nbInputImage" +:+ Py.str i +:+ "',")
                (block i) = true ∧
    Py.contains ("description: '" +:+ word +:+ " input image")
                (block i) = true ∧
    (Py.contains PLACEHOLDER_SUFFIX (block i) = true ↔ i = 1) ∧
    (Py.contains DESCRIPTION_SUFFIX (block i) = true ↔ 5 ≤ i).
Proof.
  intros Hi. split; [apply generate_ok|].
  split; [by vm_compute|]. split; [by vm_compute|].
  assert (i ∈ seq 1 14) as Hin by (apply elem_of_seq; lia).
  clear Hi. revert Hin. generalize i. apply Forall_forall.
  repeat constructor; try (by vm_compute).
  all: eexists; split; [by vm_compute|].
  all: split_and!; try (by vm_compute).
  all: split; [try (by vm_compute); lia | try (by vm_compute); intros; lia].
Qed.

Lemma generated_block_shape_witness :
  1 ≤ 5 ≤ 14 ∧
  (header :: (block <$> seq 1 14)) !! 5 = Some (block 5).
Proof.
  split; [lia|].
  exact (proj1 (proj2 (proj2 (proj2 (generated_block_shape 5
                                       ltac:(lia)))))).
Defined.

(** C10: every index the generation loop produces, each integer of
    [range(1, 15)], is a key of the ordinal mapping; the lookup of an
    iteration returns and the loop as a whole ends without a [KeyError]. *)
Theorem ordinal_lookup_total (i : nat) :
  i ∈ Py.range 1 15 →
  1 ≤ i ≤ 14 ∧
  is_Some (ordinal_map !! i) ∧
  (∀ w, ∃ text, field_template i w = (Ret text, w)) ∧
  (∀ w, ∃ fields, generate w = (Ret fields, w)).
Proof.
  intros Hi%elem_of_seq. assert (1 ≤ i ≤ 14) as Hi' by lia.
  split_and!; [lia | lia | by apply ordinal_map_lookup | |].
  - intros w. eexists. by apply field_template_ok.
  - intros w. eexists. apply generate_ok.
Qed.

Lemma ordinal_lookup_total_witness :
  14 ∈ Py.range 1 15 ∧ is_Some (ordinal_map !! 14).
Proof.
  assert (14 ∈ Py.range 1 15) as Hin by (apply elem_of_seq; simpl; lia).
  split; [exact Hin|].
  exact (proj1 (proj2 (ordinal_lookup_total 14 Hin))).
Defined.

(** C9: the generated replacement does not depend on the input file.  For
    any two files in which both markers are located, the generation leaves
    the same items, the segment of the written sequence between the kept
    prefix and the kept suffix is the same, and both files receive the same
    text between their own prefix and suffix. *)
Theorem generated_segment_constant
    (w1 w2 : world) (c1 c2 : string) (s1 e1 s2 e2 : nat) :
  disk w1 !! target = Some c1 →
  disk w2 !! target = Some c2 →
  scan (lines_of c1) = (Some s1, Some e1) →
  scan (lines_of c2) = (Some s2, Some e2) →
  let lines1 := lines_of c1 in
  let lines2 := lines_of c2 in
  (generate w1).1 = (generate w2).1 ∧
  take (length new_fields) (drop s1 (splice lines1 s1 e1 new_fields)) =
  take (length new_fields) (drop s2 (splice lines2 s2 e2 new_fields)) ∧
  ∃ w1' w2',
    main w1 = (Ret tt, w1') ∧ main w2 = (Ret tt, w2') ∧
    disk w1' !! target =
      Some (Py.joined (take s1 lines1) +:+ generated_text
              +:+ Py.joined (drop e1 lines1)) ∧
    disk w2' !! target =
      Some (Py.joined (take s2 lines2) +:+ generated_text
              +:+ Py.joined (drop e2 lines2)).
Proof.
  intros Hd1 Hd2 Hscan1 Hscan2 lines1 lines2.
  assert (∀ lines s e, scan lines = (Some s, Some e) →
            take (length new_fields) (drop s (splice lines s e new_fields))
            = new_fields) as Hmid.
  { intros lines s e Hscan.
    destruct (scan_found_bounds _ _ _ Hscan)
      as [Hse (l & Hl%lookup_lt_Some & _)].
    unfold splice. rewrite drop_app_length' by (rewrite length_take; lia).
    by rewrite take_app_length. }
  split_and!.
  - by rewrite !generate_ok.
  - by rewrite !Hmid.
  - eexists _, _. split_and!; [by apply main_found..| |].
    all: cbn [disk]; by rewrite lookup_insert_eq, splice_text.
Qed.

Lemma generated_segment_constant_witness :
  let c1 := Py.joined small_lines in
  let c2 := Py.joined hundred_lines in
  disk (on_disk c1) !! target = Some c1 ∧
  disk (on_disk c2) !! target = Some c2 ∧
  scan (lines_of c1) = (Some 1, Some 4) ∧
  scan (lines_of c2) = (Some 19, Some 24) ∧
  take (length new_fields) (drop 1 (splice (lines_of c1) 1 4 new_fields)) =
  take (length new_fields) (drop 19 (splice (lines_of c2) 19 24 new_fields)).
Proof.
  assert (scan (lines_of (Py.joined hundred_lines)) = (Some 19, Some 24))
    as Hscan2 by (vm_compute; reflexivity).
  split; [reflexivity|]. split; [reflexivity|]. split; [reflexivity|].
  split; [exact Hscan2|].
  exact (proj1 (proj2 (generated_segment_constant
                         (on_disk (Py.joined small_lines))
                         (on_disk (Py.joined hundred_lines))
                         _ _ 1 4 19 24 eq_refl eq_refl eq_refl Hscan2))).
Defined.

(** C6: when an index is unset after the full scan, the script prints the
    diagnostic with both index values, where an unset index reads [None] and
    a set one reads as its decimal, exits with status 1, and writes nothing:
    the disk is as it was.  This is what happens whenever no line contains
    the start marker, no line contains the end marker, no line passes the
    start test, or every line containing the end marker comes before every
    line passing the start test. *)
Theorem marker_not_found_aborts (w : world) (content : string) :
  disk w !! target = Some content →
  let lines := lines_of content in
  (∀ l, l ∈ lines → Py.contains START_MARKER l = false) ∨
  (∀ l, l ∈ lines → Py.contains END_MARKER l = false) ∨
  (∀ k, ¬ start_at lines k) ∨
  (∀ i j, start_at lines i → end_at lines j → j < i) ∨
  (scan lines).1 = None ∨ (scan lines).2 = None →
  ∃ s e,
    scan lines = (s, e) ∧ (s = None ∨ e = None) ∧
    main w = (SystemExit 1,
              {| disk := disk w;
                 stdout := stdout w ++ [error_message s e] |}) ∧
    1 ≠ 0 ∧
    error_message s e =
      "Error: Could not find section. start_idx=" +:+ Py.fmt_idx s
        +:+ ", end_idx=" +:+ Py.fmt_idx e ∧
    (Py.fmt_idx s = "None" ↔ s = None) ∧
    (Py.fmt_idx e = "None" ↔ e = None).
Proof.
  intros Hd lines Hcase.
  destruct (scan lines) as [s e] eqn:Hscan. exists s, e.
  assert (s = None ∨ e = None) as Hnone.
  { pose proof (scan_from_post [] lines None s e scan_inv_nil Hscan)
      as (Hstart & _ & Hend & _). cbn zeta in Hstart, Hend.
    rewrite app_nil_l in Hstart, Hend.
    destruct Hcase as [Hno|[Hno|[Hno|[Hord|[Hs|He]]]]]; [| | | |by auto..].
    - left. destruct s as [i|]; [|done].
      destruct (Hstart i eq_refl) as [(l & Hl & Hs) _].
      apply list_elem_of_lookup_2, Hno in Hl.
      unfold is_start in Hs. by rewrite Hl in Hs.
    - right. destruct e as [j|]; [|done].
      destruct (Hend j eq_refl) as [(l & Hl & He) _].
      apply list_elem_of_lookup_2, Hno in Hl.
      unfold is_end in He. congruence.
    - left. destruct s as [i|]; [|done].
      destruct (Hstart i eq_refl) as [Hi _]. by apply Hno in Hi.
    - right. destruct e as [j|]; [|done].
      destruct (Hend j eq_refl) as [Hj (i & -> & Hij)].
      destruct (Hstart i eq_refl) as [Hi _].
      specialize (Hord i j Hi Hj). lia. }
  split_and!; [done | done | by eapply main_not_found | done | done |..];
    apply fmt_idx_None.
Qed.

Lemma marker_not_found_aborts_witness :
  let content := Py.joined end_before_start in
  let w := on_disk content in
  disk w !! target = Some content ∧
  (scan (lines_of content)).2 = None ∧
  main w =
    (SystemExit 1,
     {| disk := disk w;
        stdout := ["Error: Could not find section. start_idx=2, end_idx=None"]
     |}).
Proof.
  split; [reflexivity|]. split; [reflexivity|].
  destruct (marker_not_found_aborts (on_disk (Py.joined end_before_start))
              (Py.joined end_before_start) eq_refl
              (or_intror (or_intror (or_intror (or_intror
                 (or_intror eq_refl))))))
    as (s & e & Hscan & _ & Hmain & _).
  injection Hscan as <- <-. exact Hmain.
Defined.

(** C1, as stated, fails: a second run on the file a first run wrote does
    find a start marker, the generated header line, which contains the start
    marker text.  On the small file the second run prints no diagnostic and
    completes normally. *)
Lemma second_run_completes_example :
  let w := on_disk (Py.joined small_lines) in
  ∃ w' out,
    main w = (Ret tt, w') ∧
    disk w' !! target = Some out ∧
    lines_of out !! 1 = Some header ∧
    Py.contains START_MARKER header = true ∧
    scan (lines_of out) = (Some 1, Some 184) ∧
    main (on_disk out) =
      (Ret tt,
       {| disk := {[ target := out ]};
          stdout := ["Found section from line 2 to 184"; success_message] |}) ∧
    ¬ (∃ s e w'', main (on_disk out) = (SystemExit 1, w'') ∧
                  error_message s e ∈ stdout w'').
Proof.
  cbn zeta.
  assert (scan (lines_of (Py.joined small_lines)) = (Some 1, Some 4)) as Hscan
    by reflexivity.
  pose proof (main_found (on_disk (Py.joined small_lines)) _ 1 4
                eq_refl Hscan) as Hmain.
  set (out := Py.joined (splice (lines_of (Py.joined small_lines)) 1 4
                           new_fields)) in *.
  destruct (rerun_main (on_disk out) _ 1 4 Hscan) as [Hscan' Hmain'].
  { apply lookup_singleton_eq. }
  fold out in Hscan', Hmain'.
  rewrite generated_lines_length in Hscan', Hmain'.
  eexists _, out. split; [exact Hmain|].
  split; [cbn [disk]; apply lookup_insert_eq|].
  split; [by vm_compute|]. split; [by vm_compute|].
  split; [exact Hscan'|].
  assert (main (on_disk out) =
            (Ret tt,
             {| disk := {[ target := out ]};
                stdout := ["Found section from line 2 to 184";
                           success_message] |})) as Hrun.
  { rewrite Hmain'. cbn [on_disk disk stdout app].
    by rewrite insert_singleton_eq. }
  split; [exact Hrun|].
  intros (s & e & w'' & Hexit & _). rewrite Hrun in Hexit. discriminate.
Qed.

(** C1, amended: a second run, on the file a first successful run wrote,
    locates the start marker at the generated header line, at the start
    index of the first run, and the end marker at the old end-marker line,
    183 lines further; it prints the found and success messages and no
    diagnostic, completes normally, and the file it writes is byte for byte
    the file it read. *)
Theorem second_run_finds_header (w w' w2 : world) :
  main w = (Ret tt, w') →
  disk w2 = disk w' →
  ∃ content s e out,
    disk w !! target = Some content ∧
    scan (lines_of content) = (Some s, Some e) ∧
    disk w' !! target = Some out ∧
    lines_of out !! s = Some header ∧
    is_start header = true ∧
    scan (lines_of out) = (Some s, Some (s + 183)) ∧
    main w2 =
      (Ret tt,
       {| disk := disk w2;
          stdout := stdout w2 ++ [found_message s (s + 183);
                                  success_message] |}) ∧
    disk w2 !! target = Some out.
Proof.
  intros Hmain Hd2.
  destruct (main_completed _ _ Hmain) as (content & s & e & Hd & Hscan).
  rewrite (main_found _ _ _ _ Hd Hscan) in Hmain. injection Hmain as <-.
  cbn [disk] in Hd2.
  set (out := Py.joined (splice (lines_of content) s e new_fields)) in *.
  assert (disk w2 !! target = Some out) as Hout
    by (rewrite Hd2; apply lookup_insert_eq).
  destruct (rerun_main w2 _ s e Hscan Hout) as [Hscan' Hmain'].
  fold out in Hscan'. rewrite generated_lines_length in Hscan', Hmain'.
  destruct (scan_found_bounds _ _ _ Hscan) as [Hse (l & Hl%lookup_lt_Some & _)].
  exists content, s, e, out. split_and!; try done.
  - cbn [disk]. apply lookup_insert_eq.
  - unfold out. rewrite rerun_lines by done.
    rewrite lookup_app_r by (rewrite length_take; lia).
    rewrite length_take_le, Nat.sub_diag by lia. by vm_compute.
  - rewrite Hmain'. by rewrite (insert_id _ _ _ Hout).
Qed.

Lemma second_run_finds_header_witness :
  let w := on_disk (Py.joined small_lines) in
  main w = (Ret tt, (main w).2) ∧
  ∃ s out, disk (main w).2 !! target = Some out ∧
           lines_of out !! s = Some header ∧
           scan (lines_of out) = (Some s, Some (s + 183)).
Proof.
  cbn zeta.
  assert (main (on_disk (Py.joined small_lines)) =
            (Ret tt, (main (on_disk (Py.joined small_lines))).2)) as Hmain
    by (vm_compute; reflexivity).
  split; [exact Hmain|].
  destruct (second_run_finds_header _ _ _ Hmain eq_refl)
    as (content & s & e & out & _ & _ & Hout & Hhead & _ & Hscan & _).
  exists s, out. split; [exact Hout|]. split; [exact Hhead|exact Hscan].
Defined.

(** C8: the transformation is idempotent on the file.  After a successful
    run, another run of the script on the resulting disk succeeds as well,
    the header line being a line that passes the start test, and writes back
    the very same content: the disk after the second run equals the disk
    after the first. *)
Theorem main_idempotent (w w' w2 : world) :
  main w = (Ret tt, w') →
  disk w2 = disk w' →
  is_start header = true ∧
  ∃ w2', main w2 = (Ret tt, w2') ∧ disk w2' = disk w' ∧
         disk w2' !! target = disk w' !! target.
Proof.
  intros Hmain Hd2. split; [by vm_compute|].
  destruct (main_completed _ _ Hmain) as (content & s & e & Hd & Hscan).
  rewrite (main_found _ _ _ _ Hd Hscan) in Hmain. injection Hmain as <-.
  cbn [disk] in *.
  set (out := Py.joined (splice (lines_of content) s e new_fields)) in *.
  assert (disk w2 !! target = Some out) as Hout
    by (rewrite Hd2; apply lookup_insert_eq).
  destruct (rerun_main w2 _ s e Hscan Hout) as [_ Hmain'].
  eexists. split; [exact Hmain'|]. cbn [disk]. fold out.
  rewrite (insert_id _ _ _ Hout). by rewrite Hd2.
Qed.

Lemma main_idempotent_witness :
  let w := on_disk (Py.joined small_lines) in
  main w = (Ret tt, (main w).2) ∧
  ∃ w2', main (main w).2 = (Ret tt, w2') ∧ disk w2' = disk (main w).2.
Proof.
  cbn zeta.
  assert (main (on_disk (Py.joined small_lines)) =
            (Ret tt, (main (on_disk (Py.joined small_lines))).2)) as Hmain
    by (vm_compute; reflexivity).
  split; [exact Hmain|].
  destruct (main_idempotent _ _ _ Hmain eq_refl)
    as (_ & w2' & Hrun & Hdisk & _).
  exists w2'. split; [exact Hrun|exact Hdisk].
Defined.

(** ** Further properties of the scan *)

Section scan_more.

Implicit Types (l : string) (lines pre : list string).
Implicit Types (i j k n : nat) (st s e : option nat).

(** The result of a whole scan read on its lines. *)
Lemma scan_post lines s e :
  scan lines = (s, e) →
  (∀ i, s = Some i →
     start_at lines i ∧ ∀ k, i < k → before_stop e k → ¬ start_at lines k) ∧
  (s = None → ∀ k, ¬ start_at lines k) ∧
  (∀ j, e = Some j → end_at lines j ∧ ∃ i, s = Some i ∧ i < j) ∧
  (∀ i0 k, start_at lines i0 → i0 < k → before_stop e k → ¬ end_at lines k).
Proof.
  intros Hscan. exact (scan_from_post [] lines None s e scan_inv_nil Hscan).
Qed.

(** Moving the loop [n] lines down moves its results [n] lines down. *)
Lemma scan_from_shift n i st lines :
  scan_from (n + i) ((λ a, n + a) <$> st) lines =
  shifted n (scan_from i st lines).
Proof.
  revert i st. induction lines as [|l lines IH]; intros i st; [done|].
  destruct (scan_from_cases i st l lines) as [[Hst He]|Hnext].
  - rewrite !scan_from_break; [done|done|done|by destruct st|done].
  - rewrite (scan_from_next i) by done.
    rewrite scan_from_next by (destruct Hnext as [[-> ?]|?]; auto).
    rewrite <- IH, Nat.add_succ_r. by destruct (is_start l).
Qed.

(** Without a start line and with [start_idx] unset the loop runs through,
    whatever end markers it meets. *)
Lemma scan_from_no_start i pre :
  Forall (λ l, is_start l = false) pre →
  scan_from i None pre = (None, None).
Proof.
  intros H. revert i. induction H as [|l pre Hl _ IH]; intros i; [done|].
  rewrite scan_from_next by auto. by rewrite Hl.
Qed.

End scan_more.

(** ** Further properties of the runs *)

Section runs_more.

Implicit Types (w : world) (content : string).

(** The three ways a run can go. *)
Lemma main_cases w :
  (disk w !! target = None ∧
   main w = (Raise (FileNotFoundError target), w)) ∨
  (∃ content s e,
     disk w !! target = Some content ∧
     scan (lines_of content) = (s, e) ∧ (s = None ∨ e = None) ∧
     main w = (SystemExit 1,
               {| disk := disk w;
                  stdout := stdout w ++ [error_message s e] |})) ∨
  (∃ content (s e : nat),
     disk w !! target = Some content ∧
     scan (lines_of content) = (Some s, Some e) ∧
     main w =
       (Ret tt,
        {| disk := <[target :=
                       Py.joined (splice (lines_of content) s e new_fields)]>
                     (disk w);
           stdout := stdout w ++ [found_message s e; success_message] |})).
Proof.
  destruct (disk w !! target) as [content|] eqn:Hd.
  - right. destruct (scan (lines_of content)) as [[s|] [e|]] eqn:Hscan.
    + right. exists content, s, e. by rewrite (main_found _ _ _ _ Hd Hscan).
    + left. exists content, (Some s), None.
      rewrite (main_not_found _ _ _ _ Hd Hscan) by auto. by auto.
    + left. exists content, None, (Some e).
      rewrite (main_not_found _ _ _ _ Hd Hscan) by auto. by auto.
    + left. exists content, None, None.
      rewrite (main_not_found _ _ _ _ Hd Hscan) by auto. by auto.
  - left. by rewrite main_missing.
Qed.

(** The text a successful run writes has no carriage return. *)
Lemma splice_cr_free content (s e : nat) :
  Py.cr_free (Py.joined (splice (lines_of content) s e new_fields)) = true.
Proof.
  assert (Py.cr_free (Py.joined (lines_of content)) = true) as Hcr.
  { unfold lines_of. by rewrite joined_readlines, universal_newlines_cr_free. }
  rewrite splice_text, !cr_free_app, generated_text_cr_free.
  by rewrite cr_free_joined_take, cr_free_joined_drop.
Qed.

(** The lines split at the two indices. *)
Lemma lines_split (lines : list string) (s e : nat) :
  s ≤ e →
  lines = take s lines ++ take (e - s) (drop s lines) ++ drop e lines.
Proof.
  intros Hse. rewrite <- (take_drop s lines) at 1. f_equal.
  rewrite <- (take_drop (e - s) (drop s lines)) at 1. f_equal.
  rewrite drop_drop. f_equal. lia.
Qed.

(** A run on the disk a successful run left. *)
Lemma rerun_disk w w' w2 :
  main w = (Ret tt, w') → disk w2 = disk w' →
  ∃ w2', main w2 = (Ret tt, w2') ∧ disk w2' = disk w'.
Proof.
  intros Hmain Hd2.
  destruct (main_completed _ _ Hmain) as (content & s & e & Hd & Hscan).
  rewrite (main_found _ _ _ _ Hd Hscan) in Hmain. injection Hmain as <-.
  cbn [disk] in *.
  set (out := Py.joined (splice (lines_of content) s e new_fields)) in *.
  assert (disk w2 !! target = Some out) as Hout
    by (rewrite Hd2; apply lookup_insert_eq).
  destruct (rerun_main w2 _ s e Hscan Hout) as [_ Hmain'].
  eexists. split; [exact Hmain'|]. cbn [disk]. fold out.
  by rewrite (insert_id _ _ _ Hout).
Qed.

End runs_more.

(** ** Further properties of the script *)

(** X1: the scan sets both indices exactly when some line containing the
    end marker comes after some line that passes the start test. *)
Theorem scan_finds_iff (lines : list string) :
  (∃ s e : nat, scan lines = (Some s, Some e)) ↔
  (∃ i j, i < j ∧ start_at lines i ∧ end_at lines j).
Proof.
  split.
  - intros (s & e & Hscan).
    destruct (scan_post _ _ _ Hscan) as (Hstart & _ & Hend & _).
    destruct (Hend e eq_refl) as [He (i & [= <-] & Hlt)].
    destruct (Hstart s eq_refl) as [Hs _]. by exists s, e.
  - intros (i & j & Hij & Hi & Hj).
    destruct (scan lines) as [s e] eqn:Hscan.
    destruct (scan_post _ _ _ Hscan) as (_ & _ & Hend & Hfirst).
    destruct e as [e|].
    + destruct (Hend e eq_refl) as [_ (s' & -> & _)]. by exists s', e.
    + destruct (Hfirst i j Hi Hij); [by intros ?|done].
Qed.

(** X2: leading lines that do not pass the start test are passed over,
    also when they contain the end marker: in front of any line sequence
    they only move the indices the scan finds by their number. *)
Theorem scan_skips_leading (pre lines : list string) :
  Forall (λ l, is_start l = false) pre →
  scan (pre ++ lines) = shifted (length pre) (scan lines).
Proof.
  intros Hpre. unfold scan.
  rewrite scan_from_app, scan_from_no_start by done. cbn [Nat.add].
  rewrite <- scan_from_shift. by rewrite Nat.add_0_r.
Qed.

Lemma scan_skips_leading_witness :
  Forall (λ l, is_start l = false) [end_line; combined_line] ∧
  scan ([end_line; combined_line] ++ small_lines) = (Some 3, Some 6).
Proof.
  assert (Forall (λ l, is_start l = false) [end_line; combined_line]) as Hpre
    by (apply (bool_decide_unpack _); vm_compute; exact I).
  split; [exact Hpre|].
  exact (scan_skips_leading [end_line; combined_line] small_lines Hpre).
Defined.

(** X3: whatever the outcome, a run leaves every file other than the target
    as it was: none is created, changed or removed. *)
Theorem main_touches_only_target (w : world) (path : string) :
  path ≠ target → disk (main w).2 !! path = disk w !! path.
Proof.
  intros Hp.
  destruct (main_cases w)
    as [[_ ->]|[(c & s & e & _ & _ & _ & ->)|(c & s & e & _ & _ & ->)]];
    cbn [snd disk]; [done | done |].
  by rewrite lookup_insert_ne.
Qed.

Lemma main_touches_only_target_witness :
  "package.json" ≠ target ∧
  disk (main (on_disk (Py.joined small_lines))).2 !! "package.json" = None.
Proof.
  assert ("package.json" ≠ target) as Hp
    by (apply (bool_decide_unpack _); vm_compute; exact I).
  split; [exact Hp|].
  exact (main_touches_only_target (on_disk (Py.joined small_lines))
           "package.json" Hp).
Defined.



(** X6: the file a completed run writes holds no carriage return, whatever
    the line ends of the file it read; reading it in text mode gives it back
    as it is. *)
Theorem written_file_has_no_cr (w w' : world) :
  main w = (Ret tt, w') →
  ∃ out, disk w' !! target = Some out ∧
         Py.cr_free out = true ∧
         Py.universal_newlines out = out.
Proof.
  intros Hmain.
  destruct (main_completed _ _ Hmain) as (content & s & e & Hd & Hscan).
  rewrite (main_found _ _ _ _ Hd Hscan) in Hmain. injection Hmain as <-.
  eexists. split; [cbn [disk]; apply lookup_insert_eq|].
  pose proof (splice_cr_free content s e) as Hcr.
  split; [done | by apply universal_newlines_id].
Qed.

Lemma written_file_has_no_cr_witness :
  let w := on_disk dos_content in
  Py.cr_free dos_content = false ∧
  main w = (Ret tt, (main w).2) ∧
  ∃ out, disk (main w).2 !! target = Some out ∧ Py.cr_free out = true.
Proof.
  cbn zeta. split; [vm_compute; reflexivity|].
  assert (main (on_disk dos_content) =
            (Ret tt, (main (on_disk dos_content)).2)) as Hmain
    by (vm_compute; reflexivity).
  split; [exact Hmain|].
  destruct (written_file_has_no_cr _ _ Hmain) as (out & Hout & Hcr & _).
  exists out. split; [exact Hout|exact Hcr].
Defined.

(** X7: a completed run changes nothing outside the section.  The text read
    is the text before the start line, the old section and the text from
    the end line on; the text written is the first, the generated text and
    the last.  For a file without carriage returns the text read is the
    file itself, so the bytes outside the section are kept. *)
Theorem text_outside_preserved (w : world) (content : string) (s e : nat) :
  disk w !! target = Some content →
  scan (lines_of content) = (Some s, Some e) →
  let lines := lines_of content in
  let before := Py.joined (take s lines) in
  let old := Py.joined (take (e - s) (drop s lines)) in
  let after := Py.joined (drop e lines) in
  Py.universal_newlines content = before +:+ old +:+ after ∧
  (Py.cr_free content = true → content = before +:+ old +:+ after) ∧
  ∃ w', main w = (Ret tt, w') ∧
        disk w' !! target = Some (before +:+ generated_text +:+ after).
Proof.
  intros Hd Hscan lines before old after.
  destruct (scan_found_bounds _ _ _ Hscan) as [Hse _].
  assert (Py.universal_newlines content = before +:+ old +:+ after) as Htext.
  { unfold before, old, after. rewrite <- !joined_app.
    rewrite <- lines_split by lia. unfold lines, lines_of.
    by rewrite joined_readlines. }
  split_and!.
  - done.
  - intros Hcr. by rewrite <- Htext, universal_newlines_id.
  - eexists. split; [by apply main_found|].
    cbn [disk]. by rewrite lookup_insert_eq, splice_text.
Qed.

Lemma text_outside_preserved_witness :
  let content := Py.joined small_lines in
  disk (on_disk content) !! target = Some content ∧
  scan (lines_of content) = (Some 1, Some 4) ∧
  ∃ w', main (on_disk content) = (Ret tt, w') ∧
        disk w' !! target =
          Some (Py.joined (take 1 (lines_of content)) +:+ generated_text
                  +:+ Py.joined (drop 4 (lines_of content))).
Proof.
  split; [reflexivity|]. split; [reflexivity|].
  exact (proj2 (proj2 (text_outside_preserved
                         (on_disk (Py.joined small_lines))
                         (Py.joined small_lines) 1 4 eq_refl eq_refl))).
Defined.

(** X8: the lines a completed run drops are those from the start index up
    to, not including, the end index: there is at least one, the first is
    the recorded start line, and none of them contains the end marker. *)
Theorem removed_region (lines : list string) (s e : nat) :
  scan lines = (Some s, Some e) →
  let removed := take (e - s) (drop s lines) in
  lines = take s lines ++ removed ++ drop e lines ∧
  splice lines s e new_fields = take s lines ++ new_fields ++ drop e lines ∧
  length removed = e - s ∧ 0 < e - s ∧
  (∃ l, removed !! 0 = Some l ∧ lines !! s = Some l ∧ is_start l = true) ∧
  Forall (λ l, is_end l = false) removed.
Proof.
  intros Hscan removed.
  destruct (scan_found_bounds _ _ _ Hscan) as [Hse (le & Hle & _)].
  pose proof (lookup_lt_Some _ _ _ Hle) as Hlt.
  destruct (scan_post _ _ _ Hscan) as (Hstart & _ & _ & Hfirst).
  destruct (Hstart s eq_refl) as [(ls & Hls & Hs) _].
  assert (∀ k, k < e - s → removed !! k = lines !! (s + k)) as Hlook.
  { intros k Hk. unfold removed.
    by rewrite lookup_take_lt, lookup_drop by done. }
  split_and!.
  - apply lines_split. lia.
  - done.
  - unfold removed. rewrite length_take, length_drop. lia.
  - lia.
  - exists ls. split_and!; [|done..].
    rewrite Hlook by lia. by rewrite Nat.add_0_r.
  - apply Forall_lookup. intros k l Hl.
    assert (k < e - s) as Hk.
    { apply lookup_lt_Some in Hl. unfold removed in Hl.
      rewrite length_take in Hl. lia. }
    rewrite Hlook in Hl by done.
    destruct (is_end l) eqn:He; [|done]. exfalso.
    destruct (decide (k = 0)) as [->|Hk0].
    + rewrite Nat.add_0_r in Hl. assert (l = ls) as -> by congruence.
      apply is_start_not_end in Hs. congruence.
    + apply (Hfirst s (s + k)); [by exists ls | lia | | by exists l].
      intros ? [= <-]. lia.
Qed.

Lemma removed_region_witness :
  scan small_lines = (Some 1, Some 4) ∧
  Forall (λ l, is_end l = false) (take (4 - 1) (drop 1 small_lines)).
Proof.
  split; [reflexivity|].
  exact (proj2 (proj2 (proj2 (proj2 (proj2
           (removed_region small_lines 1 4 eq_refl)))))).
Defined.

(** X9: once a run has completed, any number of further runs in a row
    complete too and the disk stays as the first run left it. *)
Theorem rerun_stable (n : nat) (w w' w2 : world) :
  main w = (Ret tt, w') →
  disk w2 = disk w' →
  ∃ w'', rerun n w2 = (Ret tt, w'') ∧ disk w'' = disk w'.
Proof.
  intros Hmain. revert w2. induction n as [|n IH]; intros w2 Hd2.
  - by exists w2.
  - destruct (rerun_disk _ _ _ Hmain Hd2) as (w3 & Hrun & Hd3).
    destruct (IH w3 Hd3) as (w'' & Hrest & Hd'').
    exists w''. split; [|done].
    cbn [rerun]. by rewrite bind_run, Hrun.
Qed.

Lemma rerun_stable_witness :
  let w := on_disk (Py.joined small_lines) in
  main w = (Ret tt, (main w).2) ∧
  ∃ w'', rerun 3 (main w).2 = (Ret tt, w'') ∧ disk w'' = disk (main w).2.
Proof.
  cbn zeta.
  assert (main (on_disk (Py.joined small_lines)) =
            (Ret tt, (main (on_disk (Py.joined small_lines))).2)) as Hmain
    by (vm_compute; reflexivity).
  split; [exact Hmain|].
  exact (rerun_stable 3 _ _ _ Hmain eq_refl).
Defined.

(** X10: when no line of the file passes the start test, and so for an
    empty file, both indices stay unset whatever end markers there are: the
    run prints the diagnostic with [None] twice and exits with status 1. *)
Theorem start_unset_diagnostic (w : world) (content : string) :
  disk w !! target = Some content →
  Forall (λ l, is_start l = false) (lines_of content) →
  scan (lines_of content) = (None, None) ∧
  main w =
    (SystemExit 1,
     {| disk := disk w;
        stdout := stdout w ++
          ["Error: Could not find section. start_idx=None, end_idx=None"] |}).
Proof.
  intros Hd Hno.
  assert (scan (lines_of content) = (None, None)) as Hscan
    by (by apply scan_from_no_start).
  split; [done|].
  by rewrite (main_not_found _ _ _ _ Hd Hscan) by auto.
Qed.

Lemma start_unset_diagnostic_witness :
  disk (on_disk EmptyString) !! target = Some EmptyString ∧
  Forall (λ l, is_start l = false) (lines_of EmptyString) ∧
  main (on_disk EmptyString) =
    (SystemExit 1,
     {| disk := disk (on_disk EmptyString);
        stdout :=
          ["Error: Could not find section. start_idx=None, end_idx=None"] |}).
Proof.
  split; [reflexivity|]. split; [constructor|].
  exact (proj2 (start_unset_diagnostic (on_disk EmptyString) EmptyString
                  eq_refl (Forall_nil_2 _))).
Defined.
